(** * A blog-style content API: bearer-token middleware, post routes, Button

    Shallow embedding of the server's authentication middleware
    ([middleware/auth.js]), the token utility ([utils/auth.js]), the
    application wrapper ([app.js]) and the client's [Button] component,
    together with the properties stated about them. *)

From Stdlib Require Import Ascii String.
From stdpp Require Import gmap strings list fin_maps.

(** ** JavaScript string primitives used by the sources *)

Module JsString.

Definition space : ascii := Ascii.ascii_of_nat 32.

(** [s.startsWith(prefix)] *)
Fixpoint startsWith (s prefix : string) {struct prefix} : bool :=
  match prefix with
  | EmptyString => true
  | String p prefix' =>
      match s with
      | EmptyString => false
      | String c s' => if Ascii.eqb c p then startsWith s' prefix' else false
      end
  end.

(** [s.slice(n)] for [0 <= n]: the string without its first [n] characters. *)
Fixpoint slice (n : nat) (s : string) : string :=
  match n, s with
  | O, _ => s
  | S _, EmptyString => EmptyString
  | S n', String _ s' => slice n' s'
  end.

(** [s.split(sep)] for a separator of one character: the fields between
    the separators, in order; the result always has at least one field
    ([''.split(' ')] is [['']]). *)
Fixpoint split (sep : ascii) (s : string) : list string :=
  match s with
  | EmptyString => [EmptyString]
  | String c s' =>
      if Ascii.eqb c sep then EmptyString :: split sep s'
      else match split sep s' with
           | field :: fields => String c field :: fields
           | [] => [String c EmptyString]
           end
  end.

(** [s.replace(pat, rep)] for a string pattern [pat] and a replacement
    [rep] without [$] patterns: only the first occurrence of [pat] is
    replaced. *)
Fixpoint replace (pat rep s : string) {struct s} : string :=
  if startsWith s pat then rep +:+ slice (String.length pat) s
  else match s with
       | EmptyString => EmptyString
       | String c s' => String c (replace pat rep s')
       end.

(** Truthiness of a value that is [undefined] or a string: [undefined]
    and [''] are falsy. *)
Definition truthy (v : option string) : bool :=
  match v with
  | None | Some EmptyString => false
  | Some (String _ _) => true
  end.

(** [Boolean(s)] on a string, as used by [filter(Boolean)]. *)
Definition nonempty (s : string) : bool := truthy (Some s).

(** [parts.join(sep)] *)
Fixpoint join (sep : string) (parts : list string) : string :=
  match parts with
  | [] => EmptyString
  | [p] => p
  | p :: ps => p +:+ sep +:+ join sep ps
  end.

(** [s.includes(pat)]: [pat] occurs somewhere in [s]. *)
Fixpoint includes (s pat : string) {struct s} : bool :=
  startsWith s pat
  || match s with
     | EmptyString => false
     | String _ s' => includes s' pat
     end.

(** The string has no occurrence of the character [c]. *)
Fixpoint lacks (c : ascii) (s : string) : bool :=
  match s with
  | EmptyString => true
  | String d s' => negb (Ascii.eqb d c) && lacks c s'
  end.

End JsString.

(** ** Requests, responses and the Express middleware chain *)

(** The user documents, with the fields the integration tests give them
    ([models/User.js] is not among the sources). [_id] holds the string
    form of the identifier, which is what template interpolation and the
    request parameters see. *)
Record User := mkUser {
  _id : string;
  username : string;
  email : string
}.

(** [req.user], as attached by the middleware: an object with [_id] only. *)
Record ReqUser := mkReqUser { user_id : string }.

(** The JSON body of a post request: every field may be missing. *)
Record PostInput := mkPostInput {
  in_title : option string;
  in_content : option string;
  in_slug : option string;
  in_author : option string;
  in_category : option string
}.

Record Request := mkRequest {
  headers_authorization : option string;   (* req.headers.authorization *)
  params_id : string;                      (* req.params.id *)
  body : PostInput;                        (* req.body *)
  user : option ReqUser                    (* req.user *)
}.

Definition set_user (req : Request) (u : ReqUser) : Request :=
  {| headers_authorization := headers_authorization req;
     params_id := params_id req;
     body := body req;
     user := Some u |}.

(** The same request with the body's [author] field set to [a]. *)
Definition with_author (a : option string) (req : Request) : Request :=
  {| headers_authorization := headers_authorization req;
     params_id := params_id req;
     body := {| in_title := in_title (body req);
                in_content := in_content (body req);
                in_slug := in_slug (body req);
                in_author := a;
                in_category := in_category (body req) |};
     user := user req |}.

(** Modelled from the spec: the kinds of failure the API reports. *)
Inductive ErrorKind := Unauthenticated | ValidationFailed | NotFound | Unhandled.

(** Modelled from the spec: the status code of each kind of failure. The
    spec names no code for [Unhandled]; the generic server failure 500 is
    taken, and no property below depends on it. *)
Definition status_of (k : ErrorKind) : nat :=
  match k with
  | Unauthenticated => 401
  | ValidationFailed => 400
  | NotFound => 404
  | Unhandled => 500
  end.

(** Modelled from the spec: the documents of the [posts] collection
    ([models/Post.js] is not among the sources). [author] and [category]
    are references: they hold identifiers. *)
Record Post := mkPost {
  post_id : string;
  title : string;
  content : string;
  slug : option string;
  author : string;
  category : option string;
  createdAt : N;
  updatedAt : N
}.

(** What [res.json] is given. *)
Inductive Json :=
| JMessage (message : string)
| JError (kind : ErrorKind)
| JPost (p : Post)
| JPopulated (p : Post) (author_doc : option User).

Record Response := mkResponse { status : nat; json : Json }.

(** A middleware either answers the request itself or calls [next()],
    handing the (possibly extended) request on. *)
Inductive MwResult :=
| Responded (res : Response)
| Next (req : Request).

(** ** [utils/auth.js] *)

(** [`token_${user._id}`] *)
Definition generateToken (u : User) : string := "token_" +:+ _id u.

(** ** [middleware/auth.js]

    [req.headers.authorization] is a string or [undefined], so none of the
    calls in the [try] block throws and the [catch] branch is not taken. *)
Definition authenticate (req : Request) : MwResult :=
  let authHeader := headers_authorization req in
  if negb (JsString.truthy authHeader)
     || negb (JsString.startsWith (default "" authHeader) "Bearer ")
  then Responded {| status := 401; json := JMessage "Authentication required" |}
  else
    let token := JsString.split JsString.space (default "" authHeader) !! 1 in
    if negb (JsString.truthy token)
    then Responded {| status := 401; json := JMessage "Invalid token" |}
    else Next (set_user req
                 {| user_id := JsString.replace "token_" "" (default "" token) |}).

(** ** The store and the route handlers *)

(** The two collections the handlers read and write. *)
Record Store := mkStore {
  posts : gmap string Post;
  users : gmap string User
}.

Definition set_posts (st : Store) (ps : gmap string Post) : Store :=
  {| posts := ps; users := users st |}.

(** A route handler answers a request and leaves a store behind. *)
Definition Handler : Type := Request -> Store -> Response * Store.

(** [router.METHOD(path, mw, handler)]: the handler runs only when the
    middleware calls [next()]; when the middleware responds, nothing after
    it runs and the store is as it was. *)
Definition guarded (mw : Request -> MwResult) (h : Handler) : Handler :=
  fun req st =>
    match mw req with
    | Responded res => (res, st)
    | Next req' => h req' st
    end.

(** Modelled from the spec: the response that reports a failure. *)
Definition failure (k : ErrorKind) : Response :=
  {| status := status_of k; json := JError k |}.

(** Modelled from the spec: the [Post] model's validation ([models/Post.js]
    is not among the sources): title and content must be present at
    creation. *)
Definition validate (b : PostInput) : option (string * string) :=
  match in_title b, in_content b with
  | Some t, Some c => Some (t, c)
  | _, _ => None
  end.

(** Modelled from the spec: the handler of [POST /posts]
    ([routes/postRoutes.js] is not among the sources): validates the
    presence of title and content, persists with author = authenticated id
    under a newly allocated identifier, and returns 201 with the created
    post, or 400 on validation failure. *)
Definition createPost (now : N) (req : Request) (st : Store) : Response * Store :=
  match user req with
  | None => (failure Unhandled, st)
  | Some u =>
      match validate (body req) with
      | None => (failure ValidationFailed, st)
      | Some (t, c) =>
          let p := {| post_id := fresh (dom (posts st));
                      title := t;
                      content := c;
                      slug := in_slug (body req);
                      author := user_id u;
                      category := in_category (body req);
                      createdAt := now;
                      updatedAt := now |} in
          ({| status := 201; json := JPost p |},
           set_posts st (<[post_id p := p]> (posts st)))
      end
  end.

(** Modelled from the spec: the handler of [GET /posts/:id]: 200 with the
    post, its author reference populated from the users, or 404 if
    absent. *)
Definition getPost (req : Request) (st : Store) : Response * Store :=
  match posts st !! params_id req with
  | None => (failure NotFound, st)
  | Some p => ({| status := 200; json := JPopulated p (users st !! author p) |}, st)
  end.

(** Modelled from the spec: the lookup of [PUT /posts/:id], by the
    combination of post identifier and owner. *)
Definition find_owned (id owner : string) (ps : gmap string Post) : option Post :=
  match ps !! id with
  | Some p => if decide (author p = owner) then Some p else None
  | None => None
  end.

(** Modelled from the spec: the update of a post by a request body. The
    fields of the body that are present replace those of the post; the
    author stays as stamped at creation. *)
Definition apply_update (now : N) (b : PostInput) (p : Post) : Post :=
  {| post_id := post_id p;
     title := default (title p) (in_title b);
     content := default (content p) (in_content b);
     slug := match in_slug b with Some s => Some s | None => slug p end;
     author := author p;
     category := match in_category b with Some c => Some c | None => category p end;
     createdAt := createdAt p;
     updatedAt := now |}.

(** Modelled from the spec: the handler of [PUT /posts/:id]: looks up and
    updates only if the authenticated id matches the stored author; 200
    with the updated post, 404 if there is no matching post/owner
    combination. *)
Definition updatePost (now : N) (req : Request) (st : Store) : Response * Store :=
  match user req with
  | None => (failure Unhandled, st)
  | Some u =>
      match find_owned (params_id req) (user_id u) (posts st) with
      | None => (failure NotFound, st)
      | Some p =>
          let p' := apply_update now (body req) p in
          ({| status := 200; json := JPost p' |},
           set_posts st (<[params_id req := p']> (posts st)))
      end
  end.

(** Modelled from the spec: the handler of [DELETE /posts/:id]: deletes by
    id and returns 200 with a confirmation message. *)
Definition deletePost (req : Request) (st : Store) : Response * Store :=
  ({| status := 200; json := JMessage "Post deleted" |},
   set_posts st (delete (params_id req) (posts st))).

(** The endpoints under [/api/posts] that the properties below concern
    (the listing endpoint [GET /posts] is left out). *)
Inductive Endpoint := POST_posts | GET_post | PUT_post | DELETE_post.

(** Modelled from the spec: the route table of [routes/postRoutes.js]:
    creation, update and deletion require authentication, reading is
    public. *)
Definition postRoutes (now : N) (e : Endpoint) : Handler :=
  match e with
  | POST_posts => guarded authenticate (createPost now)
  | GET_post => getPost
  | PUT_post => guarded authenticate (updatePost now)
  | DELETE_post => guarded authenticate deletePost
  end.

(** [app.js]: [app.use('/api/posts', postRoutes)] *)
Definition app : N -> Endpoint -> Handler := postRoutes.

(** ** [client/src/components/Button.jsx] *)

Module ButtonComponent.

Section Component.
(** React nodes and event handlers are opaque here. *)
Context {Node Callback : Type}.

(** The props object. A field that is [None] is [undefined], which is
    when a destructuring default applies; [rest] holds every prop
    that the destructuring pattern does not name. *)
Record Props := mkProps {
  children : option Node;
  onClick : option Callback;
  disabled : option bool;
  variant : option string;
  size : option string;
  type : option string;
  className : option string;
  rest : list (string * string)
}.

(** The rendered [<button>] element. The spread [{...rest}] comes last
    but cannot override the named attributes, since [rest] has none of
    the destructured names. *)
Record Element := mkElement {
  attr_type : string;
  attr_onClick : option Callback;
  attr_disabled : bool;
  attr_className : string;
  attr_rest : list (string * string);
  el_children : option Node
}.

Definition Button (props : Props) : Element :=
  let disabled := default false (disabled props) in
  let variant := default "primary" (variant props) in
  let size := default "md" (size props) in
  let type := default "button" (type props) in
  let className := default "" (className props) in
  let variantClass := "btn-" +:+ variant in
  let sizeClass := "btn-" +:+ size in
  let disabledClass := if disabled then "btn-disabled" else "" in
  let buttonClasses :=
    JsString.join " "
      (List.filter JsString.nonempty
                   [variantClass; sizeClass; disabledClass; className]) in
  {| attr_type := type;
     attr_onClick := onClick props;
     attr_disabled := disabled;
     attr_className := buttonClasses;
     attr_rest := rest props;
     el_children := children props |}.

(** The props with nothing passed. *)
Definition no_props : Props :=
  {| children := None; onClick := None; disabled := None; variant := None;
     size := None; type := None; className := None; rest := [] |}.
End Component.

Arguments Props : clear implicits.
Arguments Element : clear implicits.

(** Space hygiene of a class string. *)
Definition leading_space (s : string) : bool :=
  match s with
  | String c _ => Ascii.eqb c JsString.space
  | EmptyString => false
  end.

Fixpoint trailing_space (s : string) : bool :=
  match s with
  | EmptyString => false
  | String c EmptyString => Ascii.eqb c JsString.space
  | String _ s' => trailing_space s'
  end.

Fixpoint doubled_space (s : string) : bool :=
  match s with
  | String c s' =>
      (Ascii.eqb c JsString.space && leading_space s') || doubled_space s'
  | EmptyString => false
  end.

Definition tidy (s : string) : bool :=
  negb (leading_space s) && negb (trailing_space s) && negb (doubled_space s).

End ButtonComponent.

(** * Properties *)

(** ** String primitives *)

Section StringFacts.
Import JsString.

Lemma replace_unfold pat rep s :
  replace pat rep s =
  if startsWith s pat then rep +:+ slice (String.length pat) s
  else match s with
       | EmptyString => EmptyString
       | String c s' => String c (replace pat rep s')
       end.
Proof. destruct s; reflexivity. Qed.

Lemma startsWith_app p s : startsWith (p +:+ s) p = true.
Proof. induction p as [|c p IH]; simpl; [done|]. by rewrite Ascii.eqb_refl. Qed.

Lemma slice_app p s : slice (String.length p) (p +:+ s) = s.
Proof. induction p as [|c p IH]; simpl; [by destruct s|done]. Qed.

Lemma startsWith_split p s :
  startsWith s p = true -> s = p +:+ slice (String.length p) s.
Proof.
  revert s. induction p as [|c p IH]; intros s H; simpl in *.
  - by destruct s.
  - destruct s as [|d s]; [done|].
    destruct (Ascii.eqb_spec d c) as [->|]; [|done].
    change (String c s = String c (p +:+ slice (String.length p) s)).
    f_equal. by apply IH.
Qed.

(** Stripping a prefix that was just put in front gives the rest back. *)
Lemma replace_prefix p s : replace p "" (p +:+ s) = s.
Proof. by rewrite replace_unfold, startsWith_app, slice_app. Qed.

Lemma split_cons_field sep s : exists f fs, split sep s = f :: fs.
Proof.
  induction s as [|c s [f [fs IH]]]; simpl; [by eauto|].
  destruct (Ascii.eqb c sep); [by eauto|]. rewrite IH. by eauto.
Qed.

(** A string without separator is a single field. *)
Lemma split_lacks sep s : lacks sep s = true -> split sep s = [s].
Proof.
  induction s as [|c s IH]; simpl; [done|].
  intros [Hc Hs]%andb_true_iff. apply negb_true_iff in Hc.
  by rewrite Hc, IH.
Qed.

(** The first field is empty exactly when the string is empty or begins
    with the separator. *)
Lemma split_head_empty sep s fs :
  split sep s = "" :: fs <-> s = "" /\ fs = [] \/
                           exists s', s = String sep s' /\ fs = split sep s'.
Proof.
  destruct s as [|c s]; simpl.
  - split.
    + intros H. injection H as <-. by left.
    + intros [[_ ->]|(? & ? & _)]; done.
  - destruct (Ascii.eqb_spec c sep) as [->|Hne].
    + split.
      * intros H. injection H as <-. right. by eexists.
      * intros [[? _]|(s' & H & ->)]; [done|]. by injection H as ->.
    + destruct (split_cons_field sep s) as (f & fs' & ->).
      split; [done|]. intros [[? _]|(s' & H & _)]; [done|].
      injection H as ? ?. done.
Qed.

Lemma truthy_Some s : truthy (Some s) = true <-> s <> "".
Proof. destruct s; simpl; split; done. Qed.

(** The second field of a header that carries the bearer prefix is the
    first field of what follows the prefix. *)
Lemma bearer_second_field t :
  split space ("Bearer " +:+ t) !! 1 = head (split space t).
Proof.
  simpl. change ("" +:+ t) with t. by destruct (split space t).
Qed.
End StringFacts.

(** The primitives on the strings the sources meet. *)
Example split_bearer :
  JsString.split JsString.space "Bearer token_abc" = ["Bearer"; "token_abc"].
Proof. reflexivity. Qed.

Example split_empty : JsString.split JsString.space "" = [""].
Proof. reflexivity. Qed.

Example split_doubled :
  JsString.split JsString.space "Bearer  x" = ["Bearer"; ""; "x"].
Proof. reflexivity. Qed.

Example replace_first_only :
  JsString.replace "token_" "" "xtoken_token_1" = "xtoken_1".
Proof. reflexivity. Qed.

Example replace_no_match : JsString.replace "token_" "" "abc" = "abc".
Proof. reflexivity. Qed.

Example join_filtered :
  JsString.join " " (List.filter JsString.nonempty ["a"; ""; "b"; ""]) = "a b".
Proof. reflexivity. Qed.

(** ** The authentication middleware *)

Lemma authenticate_absent req :
  headers_authorization req = None ->
  authenticate req =
  Responded {| status := 401; json := JMessage "Authentication required" |}.
Proof. unfold authenticate. by intros ->. Qed.

Lemma authenticate_no_prefix req a :
  headers_authorization req = Some a ->
  JsString.startsWith a "Bearer " = false ->
  authenticate req =
  Responded {| status := 401; json := JMessage "Authentication required" |}.
Proof.
  unfold authenticate. intros -> Hp. cbn [default from_option id].
  rewrite Hp. by rewrite orb_true_r.
Qed.

(** With the bearer prefix in place, the outcome is decided by the first
    space-separated field of what follows it. *)
Lemma authenticate_bearer req t :
  headers_authorization req = Some ("Bearer " +:+ t) ->
  authenticate req =
  match head (JsString.split JsString.space t) with
  | Some (String c tok) =>
      Next (set_user req
              {| user_id := JsString.replace "token_" "" (String c tok) |})
  | _ => Responded {| status := 401; json := JMessage "Invalid token" |}
  end.
Proof.
  unfold authenticate. intros ->. cbn [default from_option id].
  rewrite startsWith_app, bearer_second_field.
  change (JsString.truthy (Some ("Bearer " +:+ t))) with true. cbn [negb orb].
  by destruct (head (JsString.split JsString.space t)) as [[|c tok]|].
Qed.

(** Every answer the middleware gives itself is a 401. *)
Lemma authenticate_Responded req res :
  authenticate req = Responded res -> status res = 401.
Proof.
  unfold authenticate.
  repeat match goal with |- context [if ?b then _ else _] => destruct b end;
    by intros [= <-].
Qed.

(** When the middleware calls [next()], the request it hands on is the one
    it received, with [user] attached. *)
Lemma authenticate_Next req req' :
  authenticate req = Next req' -> exists u, req' = set_user req u.
Proof.
  unfold authenticate.
  repeat match goal with |- context [if ?b then _ else _] => destruct b end;
    intros [= <-]; eauto.
Qed.

Lemma guarded_Responded mw (h : Handler) req st res :
  mw req = Responded res -> guarded mw h req st = (res, st).
Proof. unfold guarded. by intros ->. Qed.

Lemma guarded_Next mw (h : Handler) req st req' :
  mw req = Next req' -> guarded mw h req st = h req' st.
Proof. unfold guarded. by intros ->. Qed.

(** C1, as stated, fails: with the identifier [a b] the header is
    [Bearer token_a b], its second space-separated field is [token_a], and
    the identifier attached to the request is [a], not [a b]. *)
Lemma token_round_trip_space_counterexample :
  authenticate
    (mkRequest
       (Some ("Bearer " +:+ generateToken (mkUser "a b" "ann" "ann@example.com")))
       "" (mkPostInput None None None None None) None)
  = Next
      (mkRequest
         (Some "Bearer token_a b")
         "" (mkPostInput None None None None None)
         (Some {| user_id := "a" |}))
  /\ "a" <> _id (mkUser "a b" "ann" "ann@example.com").
Proof. split; [reflexivity | discriminate]. Qed.

(** C1 (amended): for every user whose identifier, in its string form,
    contains no space, authenticating a request whose Authorization header
    is ["Bearer "] followed by [generateToken user] does not answer 401: it
    calls [next()] with a user identifier equal to that string form
    attached to the request. *)
Theorem token_round_trip (u : User) (req : Request) :
  JsString.lacks JsString.space (_id u) = true ->
  headers_authorization req = Some ("Bearer " +:+ generateToken u) ->
  authenticate req = Next (set_user req {| user_id := _id u |}).
Proof.
  intros Hid Hh. rewrite (authenticate_bearer _ _ Hh).
  unfold generateToken. rewrite split_lacks by (simpl; exact Hid).
  cbn [head].
  change ("token_" +:+ _id u) with (String "t" ("oken_" +:+ _id u)) at 1.
  cbv iota. change (String "t" ("oken_" +:+ _id u)) with ("token_" +:+ _id u).
  by rewrite replace_prefix.
Qed.

Lemma token_round_trip_witness :
  authenticate
    (mkRequest (Some "Bearer token_64b7f0c2a1d3e4f5a6b7c8d9") "64b7f0c2a1d3e4f5a6b7c8da"
               (mkPostInput (Some "T") (Some "C") None None None) None)
  = Next
      (mkRequest (Some "Bearer token_64b7f0c2a1d3e4f5a6b7c8d9") "64b7f0c2a1d3e4f5a6b7c8da"
                 (mkPostInput (Some "T") (Some "C") None None None)
                 (Some {| user_id := "64b7f0c2a1d3e4f5a6b7c8d9" |})).
Proof.
  exact (token_round_trip
           (mkUser "64b7f0c2a1d3e4f5a6b7c8d9" "testuser" "test@example.com")
           (mkRequest (Some "Bearer token_64b7f0c2a1d3e4f5a6b7c8d9")
                      "64b7f0c2a1d3e4f5a6b7c8da"
                      (mkPostInput (Some "T") (Some "C") None None None) None)
           eq_refl eq_refl).
Defined.

(** C2, as stated, fails: the header [Bearer  x] (two spaces) starts with
    the literal ["Bearer "] and what follows the prefix, [ x], is not
    empty, yet the middleware answers 401 and the downstream handler does
    not run. *)
Lemma authenticate_double_space_counterexample :
  JsString.startsWith "Bearer  x" "Bearer " = true
  /\ JsString.slice 7 "Bearer  x" = " x"
  /\ authenticate
       (mkRequest (Some "Bearer  x") "" (mkPostInput None None None None None) None)
     = Responded {| status := 401; json := JMessage "Invalid token" |}
  /\ guarded authenticate deletePost
       (mkRequest (Some "Bearer  x") "" (mkPostInput None None None None None) None)
       (mkStore ∅ ∅)
     = ({| status := 401; json := JMessage "Invalid token" |}, mkStore ∅ ∅).
Proof. repeat split; reflexivity. Qed.

(** C2 (amended): for every request, if the Authorization header is absent
    or does not start with the literal ["Bearer "], the middleware answers
    401 and the downstream handler does not run; if the header starts with
    ["Bearer "] and what follows the prefix is non-empty and does not begin
    with a space, the middleware attaches a derived user identifier to the
    request, namely the first space-separated field of what follows the
    prefix with its first [token_] removed, and the downstream handler
    runs on that request; if what follows the prefix is empty or begins
    with a space, the middleware answers 401 and the downstream handler
    does not run. *)
Theorem authenticate_contract (req : Request) (h : Handler) (st : Store) :
  ((headers_authorization req = None \/
    exists a, headers_authorization req = Some a /\
              JsString.startsWith a "Bearer " = false) ->
   authenticate req =
     Responded {| status := 401; json := JMessage "Authentication required" |} /\
   guarded authenticate h req st =
     ({| status := 401; json := JMessage "Authentication required" |}, st))
  /\
  (forall t, headers_authorization req = Some ("Bearer " +:+ t) ->
             t <> "" -> JsString.startsWith t " " = false ->
   authenticate req =
     Next (set_user req
             {| user_id :=
                  JsString.replace "token_" ""
                    (default "" (head (JsString.split JsString.space t))) |}) /\
   guarded authenticate h req st =
     h (set_user req
          {| user_id :=
               JsString.replace "token_" ""
                 (default "" (head (JsString.split JsString.space t))) |}) st)
  /\
  (forall t, headers_authorization req = Some ("Bearer " +:+ t) ->
             t = "" \/ JsString.startsWith t " " = true ->
   authenticate req =
     Responded {| status := 401; json := JMessage "Invalid token" |} /\
   guarded authenticate h req st =
     ({| status := 401; json := JMessage "Invalid token" |}, st)).
Proof.
  split; [|split].
  - intros Hh.
    assert (authenticate req =
            Responded {| status := 401; json := JMessage "Authentication required" |})
      as Ha by (destruct Hh as [?|(a & ? & ?)];
                eauto using authenticate_absent, authenticate_no_prefix).
    split; [done|]. by apply guarded_Responded.
  - intros t Hh Ht Hsp. pose proof (authenticate_bearer _ _ Hh) as Ha.
    destruct (split_cons_field JsString.space t) as (f & fs & Hf).
    rewrite Hf in Ha. cbn [head] in Ha. destruct f as [|c tok].
    + apply split_head_empty in Hf as [[? _]|(s' & -> & _)]; [done|].
      by cbv in Hsp.
    + rewrite Hf. cbn [head default from_option id].
      split; [exact Ha|]. by apply guarded_Next.
  - intros t Hh Ht. pose proof (authenticate_bearer _ _ Hh) as Ha.
    assert (exists fs, JsString.split JsString.space t = "" :: fs) as [fs Hf].
    { destruct Ht as [->|Hsp]; [by exists []|].
      destruct t as [|c t]; [done|]. simpl in Hsp.
      destruct (Ascii.eqb_spec c " ") as [->|]; [|done].
      eexists. reflexivity. }
    rewrite Hf in Ha. cbn [head] in Ha.
    split; [done|]. by apply guarded_Responded.
Qed.

Lemma authenticate_contract_witness :
  guarded authenticate deletePost
    (mkRequest None "p1" (mkPostInput None None None None None) None) (mkStore ∅ ∅)
  = ({| status := 401; json := JMessage "Authentication required" |}, mkStore ∅ ∅)
  /\ authenticate
       (mkRequest (Some "Bearer token_u1") "p1"
                  (mkPostInput None None None None None) None)
     = Next (mkRequest (Some "Bearer token_u1") "p1"
                       (mkPostInput None None None None None)
                       (Some {| user_id := "u1" |}))
  /\ guarded authenticate deletePost
       (mkRequest (Some "Bearer token_u1") "p1"
                  (mkPostInput None None None None None) None)
       (mkStore {[ "p1" := mkPost "p1" "Old" "Text" None "u2" None 1 1 ]} ∅)
     = ({| status := 200; json := JMessage "Post deleted" |}, mkStore ∅ ∅)
  /\ authenticate
       (mkRequest (Some "Bearer ") "p1" (mkPostInput None None None None None) None)
     = Responded {| status := 401; json := JMessage "Invalid token" |}.
Proof.
  split; [|split; [|split]].
  - exact (proj2 (proj1 (authenticate_contract
                           (mkRequest None "p1" (mkPostInput None None None None None) None)
                           deletePost (mkStore ∅ ∅))
                        (or_introl eq_refl))).
  - exact (proj1 (proj1 (proj2 (authenticate_contract
                                  (mkRequest (Some "Bearer token_u1") "p1"
                                             (mkPostInput None None None None None) None)
                                  deletePost (mkStore ∅ ∅)))
                        "token_u1" eq_refl ltac:(discriminate) eq_refl)).
  - rewrite (proj2 (proj1 (proj2 (authenticate_contract
                                    (mkRequest (Some "Bearer token_u1") "p1"
                                               (mkPostInput None None None None None) None)
                                    deletePost
                                    (mkStore {[ "p1" := mkPost "p1" "Old" "Text" None "u2" None 1 1 ]} ∅)))
                          "token_u1" eq_refl ltac:(discriminate) eq_refl)).
    unfold deletePost, set_posts. cbn [params_id set_user posts users].
    by rewrite delete_singleton_eq.
  - exact (proj1 (proj2 (proj2 (authenticate_contract
                                  (mkRequest (Some "Bearer ") "p1"
                                             (mkPostInput None None None None None) None)
                                  deletePost (mkStore ∅ ∅)))
                        "" eq_refl (or_introl eq_refl))).
Defined.

(** C9: for every request whose Authorization header is exactly
    ["Bearer "], the middleware answers 401 with the message
    [Invalid token]; it attaches no user identifier (it hands no request
    on) and the downstream handler does not run. *)
Theorem authenticate_empty_token (req : Request) (h : Handler) (st : Store) :
  headers_authorization req = Some "Bearer " ->
  authenticate req = Responded {| status := 401; json := JMessage "Invalid token" |}
  /\ (forall req', authenticate req <> Next req')
  /\ guarded authenticate h req st =
     ({| status := 401; json := JMessage "Invalid token" |}, st).
Proof.
  intros Hh.
  assert (authenticate req =
          Responded {| status := 401; json := JMessage "Invalid token" |}) as Ha.
  { unfold authenticate. by rewrite Hh. }
  split; [done|]. split; [by rewrite Ha|]. by apply guarded_Responded.
Qed.

Lemma authenticate_empty_token_witness :
  authenticate
    (mkRequest (Some "Bearer ") "p1" (mkPostInput (Some "T") None None None None) None)
  = Responded {| status := 401; json := JMessage "Invalid token" |}.
Proof.
  exact (proj1 (authenticate_empty_token
                  (mkRequest (Some "Bearer ") "p1"
                             (mkPostInput (Some "T") None None None None) None)
                  deletePost (mkStore ∅ ∅) eq_refl)).
Defined.
(** ** The post routes *)

Lemma find_owned_Some id owner (ps : gmap string Post) p :
  find_owned id owner ps = Some p <-> ps !! id = Some p /\ author p = owner.
Proof.
  unfold find_owned. destruct (ps !! id) as [q|].
  - case_decide as Hq.
    + split; [by intros [= ->]|by intros [[= ->] _]].
    + split; [done|]. intros [[= ->] ?]. done.
  - split; [done|by intros [? _]].
Qed.

Lemma find_owned_None id owner (ps : gmap string Post) :
  find_owned id owner ps = None <->
  ps !! id = None \/ exists p, ps !! id = Some p /\ author p <> owner.
Proof.
  unfold find_owned. destruct (ps !! id) as [q|].
  - case_decide as Hq.
    + split; [done|]. intros [?|(p & [= ->] & ?)]; done.
    + split; [|done]. intros _. right. by exists q.
  - split; [by left|done].
Qed.

(** C3: for every authenticated [PUT /api/posts/:id] request, if no post
    has that id or the post's stored author differs from the authenticated
    identifier, the response is 404, the same response in both cases, and
    the store is as it was; when the post exists and its author matches,
    the response is 200 with the updated post, which is stored. *)
Theorem update_conflates_ownership_and_existence
    (now : N) (req : Request) (st : Store) (u : ReqUser) :
  authenticate req = Next (set_user req u) ->
  ((posts st !! params_id req = None \/
    exists p, posts st !! params_id req = Some p /\ author p <> user_id u) ->
   app now PUT_post req st = ({| status := 404; json := JError NotFound |}, st))
  /\
  (forall p, posts st !! params_id req = Some p -> author p = user_id u ->
   app now PUT_post req st =
     ({| status := 200; json := JPost (apply_update now (body req) p) |},
      set_posts st (<[params_id req := apply_update now (body req) p]> (posts st)))).
Proof.
  intros Ha. unfold app, postRoutes. rewrite (guarded_Next _ _ _ _ _ Ha).
  unfold updatePost. cbn [user set_user params_id body]. split.
  - intros Hmiss. apply find_owned_None in Hmiss. by rewrite Hmiss.
  - intros p Hp Hown.
    assert (find_owned (params_id req) (user_id u) (posts st) = Some p) as ->
      by by apply find_owned_Some.
    done.
Qed.

Lemma update_conflates_witness :
  app 7 PUT_post
      (mkRequest (Some "Bearer token_u1") "p9"
                 (mkPostInput (Some "New") None None None None) None)
      (mkStore {[ "p1" := mkPost "p1" "Old" "Text" None "u2" None 1 1 ]} ∅)
  = ({| status := 404; json := JError NotFound |},
     mkStore {[ "p1" := mkPost "p1" "Old" "Text" None "u2" None 1 1 ]} ∅)
  /\ app 7 PUT_post
       (mkRequest (Some "Bearer token_u1") "p1"
                  (mkPostInput (Some "New") None None None None) None)
       (mkStore {[ "p1" := mkPost "p1" "Old" "Text" None "u2" None 1 1 ]} ∅)
     = ({| status := 404; json := JError NotFound |},
        mkStore {[ "p1" := mkPost "p1" "Old" "Text" None "u2" None 1 1 ]} ∅)
  /\ app 7 PUT_post
       (mkRequest (Some "Bearer token_u2") "p1"
                  (mkPostInput (Some "New") None None None None) None)
       (mkStore {[ "p1" := mkPost "p1" "Old" "Text" None "u2" None 1 1 ]} ∅)
     = ({| status := 200;
           json := JPost (mkPost "p1" "New" "Text" None "u2" None 1 7) |},
        mkStore (<[ "p1" := mkPost "p1" "New" "Text" None "u2" None 1 7 ]>
                   {[ "p1" := mkPost "p1" "Old" "Text" None "u2" None 1 1 ]}) ∅).
Proof.
  split; [|split].
  - refine (proj1 (update_conflates_ownership_and_existence 7
              (mkRequest (Some "Bearer token_u1") "p9"
                         (mkPostInput (Some "New") None None None None) None)
              (mkStore {[ "p1" := mkPost "p1" "Old" "Text" None "u2" None 1 1 ]} ∅)
              {| user_id := "u1" |} eq_refl) _).
    left. by apply lookup_singleton_ne.
  - refine (proj1 (update_conflates_ownership_and_existence 7
              (mkRequest (Some "Bearer token_u1") "p1"
                         (mkPostInput (Some "New") None None None None) None)
              (mkStore {[ "p1" := mkPost "p1" "Old" "Text" None "u2" None 1 1 ]} ∅)
              {| user_id := "u1" |} eq_refl) _).
    right. eexists. split; [apply lookup_singleton_eq | discriminate].
  - exact (proj2 (update_conflates_ownership_and_existence 7
              (mkRequest (Some "Bearer token_u2") "p1"
                         (mkPostInput (Some "New") None None None None) None)
              (mkStore {[ "p1" := mkPost "p1" "Old" "Text" None "u2" None 1 1 ]} ∅)
              {| user_id := "u2" |} eq_refl)
            (mkPost "p1" "Old" "Text" None "u2" None 1 1)
            (lookup_singleton_eq _ _) eq_refl).
Defined.

(** The middleware does not look at the body. *)
Lemma authenticate_with_author a req :
  authenticate (with_author a req) =
  match authenticate req with
  | Responded res => Responded res
  | Next req' => Next (with_author a req')
  end.
Proof.
  unfold authenticate. cbn [with_author headers_authorization].
  by repeat match goal with |- context [if ?b then _ else _] => destruct b end.
Qed.

(** C4: for every successful [POST /api/posts] request (status 201), the
    author of the persisted post is the user identifier the middleware
    derived, and the response and the store are the same whatever author
    value the body carries. *)
Theorem create_stamps_author
    (now : N) (req : Request) (st st' : Store) (res : Response) :
  app now POST_posts req st = (res, st') ->
  status res = 201 ->
  (exists u p,
     authenticate req = Next (set_user req u) /\
     json res = JPost p /\
     posts st !! post_id p = None /\
     posts st' !! post_id p = Some p /\
     author p = user_id u)
  /\ (forall a, app now POST_posts (with_author a req) st = (res, st')).
Proof.
  unfold app, postRoutes, guarded. intros Hrun Hst. split.
  - destruct (authenticate req) as [r|req'] eqn:Ha.
    { injection Hrun as <- <-.
      apply authenticate_Responded in Ha. congruence. }
    destruct (authenticate_Next _ _ Ha) as [u ->].
    unfold createPost in Hrun. cbn [user set_user body] in Hrun.
    destruct (validate (body req)) as [[t c]|]; [|by injection Hrun as <- <-].
    injection Hrun as <- <-. exists u. eexists. split; [done|].
    cbn [json post_id author posts set_posts]. split; [done|].
    split; [|split; [|done]].
    + apply not_elem_of_dom, is_fresh.
    + apply lookup_insert_eq.
  - intros a. rewrite authenticate_with_author.
    destruct (authenticate req) as [r|req'] eqn:Ha; [done|].
    by rewrite <- Hrun.
Qed.

Lemma create_stamps_author_witness :
  exists p,
    json (fst (app 5 POST_posts
                 (mkRequest (Some "Bearer token_u1") ""
                            (mkPostInput (Some "T") (Some "C") None (Some "mallory") None)
                            None)
                 (mkStore ∅ ∅))) = JPost p
    /\ author p = "u1".
Proof.
  destruct (proj1 (create_stamps_author 5
              (mkRequest (Some "Bearer token_u1") ""
                         (mkPostInput (Some "T") (Some "C") None (Some "mallory") None)
                         None)
              (mkStore ∅ ∅) _ _ eq_refl eq_refl))
    as (u & p & Hu & Hj & _ & _ & Hp).
  exists p. split; [exact Hj|].
  injection Hu as <-. exact Hp.
Defined.

(** C5: for every [POST /api/posts] request without an Authorization
    header, the response is 401 and the store is unchanged; no handler
    placed behind the middleware gets to run on it. *)
Theorem create_without_header (now : N) (req : Request) (st : Store) :
  headers_authorization req = None ->
  app now POST_posts req st =
    ({| status := 401; json := JMessage "Authentication required" |}, st)
  /\ (forall h : Handler,
        guarded authenticate h req st =
          ({| status := 401; json := JMessage "Authentication required" |}, st)).
Proof.
  intros Hh. apply authenticate_absent in Hh.
  split; [|intros h]; by apply guarded_Responded.
Qed.

Lemma create_without_header_witness :
  app 3 POST_posts
      (mkRequest None ""
                 (mkPostInput (Some "Unauthorized Post") (Some "This should fail")
                              (Some "unauthorized-post") None None) None)
      (mkStore {[ "p1" := mkPost "p1" "Old" "Text" None "u2" None 1 1 ]} ∅)
  = ({| status := 401; json := JMessage "Authentication required" |},
     mkStore {[ "p1" := mkPost "p1" "Old" "Text" None "u2" None 1 1 ]} ∅).
Proof.
  exact (proj1 (create_without_header 3
                  (mkRequest None ""
                             (mkPostInput (Some "Unauthorized Post")
                                          (Some "This should fail")
                                          (Some "unauthorized-post") None None) None)
                  (mkStore {[ "p1" := mkPost "p1" "Old" "Text" None "u2" None 1 1 ]} ∅)
                  eq_refl)).
Defined.

(** C6: for every [DELETE /api/posts/:id] request that lacks
    authentication (no Authorization header, or any header the middleware
    rejects), the response is 401 and no post is removed: the store is
    unchanged. *)
Theorem delete_unauthenticated (now : N) (req : Request) (st : Store) :
  (headers_authorization req = None ->
   app now DELETE_post req st =
     ({| status := 401; json := JMessage "Authentication required" |}, st))
  /\
  (forall res, authenticate req = Responded res ->
   app now DELETE_post req st = (res, st) /\ status res = 401).
Proof.
  split.
  - intros Hh. apply authenticate_absent in Hh. by apply guarded_Responded.
  - intros res Ha. split; [by apply guarded_Responded|].
    by apply authenticate_Responded in Ha.
Qed.

Lemma delete_unauthenticated_witness :
  app 3 DELETE_post
      (mkRequest None "p1" (mkPostInput None None None None None) None)
      (mkStore {[ "p1" := mkPost "p1" "Old" "Text" None "u2" None 1 1 ]} ∅)
  = ({| status := 401; json := JMessage "Authentication required" |},
     mkStore {[ "p1" := mkPost "p1" "Old" "Text" None "u2" None 1 1 ]} ∅)
  /\ app 3 DELETE_post
       (mkRequest (Some "Basic dTE6cHc=") "p1" (mkPostInput None None None None None) None)
       (mkStore {[ "p1" := mkPost "p1" "Old" "Text" None "u2" None 1 1 ]} ∅)
     = ({| status := 401; json := JMessage "Authentication required" |},
        mkStore {[ "p1" := mkPost "p1" "Old" "Text" None "u2" None 1 1 ]} ∅).
Proof.
  split.
  - exact (proj1 (delete_unauthenticated 3
                    (mkRequest None "p1" (mkPostInput None None None None None) None)
                    (mkStore {[ "p1" := mkPost "p1" "Old" "Text" None "u2" None 1 1 ]} ∅))
                 eq_refl).
  - exact (proj1 (proj2 (delete_unauthenticated 3
                    (mkRequest (Some "Basic dTE6cHc=") "p1"
                               (mkPostInput None None None None None) None)
                    (mkStore {[ "p1" := mkPost "p1" "Old" "Text" None "u2" None 1 1 ]} ∅))
                 _ eq_refl)).
Defined.

(** C7: for every [POST /api/posts] request with a valid Authorization
    header whose body lacks a title, the response status is 400
    (ValidationFailed), and nothing is stored. *)
Theorem create_requires_title
    (now : N) (req : Request) (st : Store) (u : ReqUser) :
  authenticate req = Next (set_user req u) ->
  in_title (body req) = None ->
  app now POST_posts req st =
    ({| status := 400; json := JError ValidationFailed |}, st).
Proof.
  intros Ha Ht. unfold app, postRoutes. rewrite (guarded_Next _ _ _ _ _ Ha).
  unfold createPost, validate. cbn [user set_user body]. by rewrite Ht.
Qed.

Lemma create_requires_title_witness :
  app 3 POST_posts
      (mkRequest (Some "Bearer token_u1") ""
                 (mkPostInput None (Some "Missing title") None None None) None)
      (mkStore ∅ ∅)
  = ({| status := 400; json := JError ValidationFailed |}, mkStore ∅ ∅).
Proof.
  exact (create_requires_title 3
           (mkRequest (Some "Bearer token_u1") ""
                      (mkPostInput None (Some "Missing title") None None None) None)
           (mkStore ∅ ∅) {| user_id := "u1" |} eq_refl eq_refl).
Defined.

(** C8: for every [GET /api/posts/:id] request, when no post with that
    identifier is in the store the response status is 404; when the post
    exists the response is 200 with the post, its author populated from
    the users. The store is unchanged either way. *)
Theorem read_post (now : N) (req : Request) (st : Store) :
  (posts st !! params_id req = None ->
   app now GET_post req st = ({| status := 404; json := JError NotFound |}, st))
  /\
  (forall p, posts st !! params_id req = Some p ->
   app now GET_post req st =
     ({| status := 200; json := JPopulated p (users st !! author p) |}, st)).
Proof.
  unfold app, postRoutes, getPost. split; [intros ->|intros p ->]; done.
Qed.

Lemma read_post_witness :
  app 3 GET_post
      (mkRequest None "p9" (mkPostInput None None None None None) None)
      (mkStore {[ "p1" := mkPost "p1" "Old" "Text" None "u2" None 1 1 ]}
               {[ "u2" := mkUser "u2" "testuser" "test@example.com" ]})
  = ({| status := 404; json := JError NotFound |},
     mkStore {[ "p1" := mkPost "p1" "Old" "Text" None "u2" None 1 1 ]}
             {[ "u2" := mkUser "u2" "testuser" "test@example.com" ]})
  /\ app 3 GET_post
       (mkRequest None "p1" (mkPostInput None None None None None) None)
       (mkStore {[ "p1" := mkPost "p1" "Old" "Text" None "u2" None 1 1 ]}
                {[ "u2" := mkUser "u2" "testuser" "test@example.com" ]})
     = ({| status := 200;
           json := JPopulated (mkPost "p1" "Old" "Text" None "u2" None 1 1)
                              (Some (mkUser "u2" "testuser" "test@example.com")) |},
        mkStore {[ "p1" := mkPost "p1" "Old" "Text" None "u2" None 1 1 ]}
                {[ "u2" := mkUser "u2" "testuser" "test@example.com" ]}).
Proof.
  split.
  - apply (proj1 (read_post 3
                    (mkRequest None "p9" (mkPostInput None None None None None) None)
                    (mkStore {[ "p1" := mkPost "p1" "Old" "Text" None "u2" None 1 1 ]}
                             {[ "u2" := mkUser "u2" "testuser" "test@example.com" ]}))).
    by apply lookup_singleton_ne.
  - rewrite (proj2 (read_post 3
                    (mkRequest None "p1" (mkPostInput None None None None None) None)
                    (mkStore {[ "p1" := mkPost "p1" "Old" "Text" None "u2" None 1 1 ]}
                             {[ "u2" := mkUser "u2" "testuser" "test@example.com" ]}))
                   _ (lookup_singleton_eq _ _)).
    cbn [author users]. by rewrite lookup_singleton_eq.
Defined.

(** ** The Button component *)

Section ButtonFacts.
Import JsString ButtonComponent.

Lemma append_String x (a b : string) : String x a +:+ b = String x (a +:+ b).
Proof. reflexivity. Qed.

Lemma append_nil_r (a : string) : a +:+ "" = a.
Proof. induction a as [|x a IH]; [done|]. by rewrite append_String, IH. Qed.

Lemma append_assoc (a b c : string) : (a +:+ b) +:+ c = a +:+ b +:+ c.
Proof. induction a as [|x a IH]; [done|]. by rewrite !append_String, IH. Qed.

Lemma leading_space_app a b :
  a <> "" -> leading_space (a +:+ b) = leading_space a.
Proof. by destruct a. Qed.

Lemma trailing_space_app a b :
  b <> "" -> trailing_space (a +:+ b) = trailing_space b.
Proof.
  intros Hb. induction a as [|x a IH]; [done|].
  rewrite append_String. cbn [trailing_space]. rewrite IH.
  destruct (a +:+ b) eqn:E; [|done]. by destruct a, b.
Qed.

(** Joining two strings with one space brings in no doubled space. *)
Lemma doubled_space_joint a b :
  doubled_space a = false -> trailing_space a = false ->
  leading_space b = false -> doubled_space b = false ->
  doubled_space (a +:+ String space b) = false.
Proof.
  intros Ha Hta Hb Hdb. induction a as [|x a IH].
  - simpl. by rewrite Hb, Hdb.
  - rewrite append_String. cbn [doubled_space] in *.
    apply orb_false_iff in Ha as [Hx Ha].
    destruct a as [|y a].
    + cbn [trailing_space] in Hta. rewrite Hta. simpl. by rewrite Hb, Hdb.
    + rewrite IH by done. rewrite orb_false_r.
      rewrite append_String. exact Hx.
Qed.

Lemma tidy_joint a b :
  a <> "" -> b <> "" -> tidy a = true -> tidy b = true ->
  tidy (a +:+ " " +:+ b) = true.
Proof.
  unfold tidy. intros Ha Hb.
  rewrite !andb_true_iff, !negb_true_iff.
  intros [[Hla Hta] Hda] [[Hlb Htb] Hdb].
  rewrite leading_space_app by done.
  rewrite trailing_space_app by done.
  change (" " +:+ b) with (String space b).
  rewrite doubled_space_joint by done.
  repeat split; try done.
  cbn [trailing_space]. by destruct b.
Qed.

Lemma join_cons sep p q qs :
  join sep (p :: q :: qs) = p +:+ sep +:+ join sep (q :: qs).
Proof. done. Qed.

Lemma join_nonempty sep p ps : p <> "" -> join sep (p :: ps) <> "".
Proof. destruct ps; [done|]. rewrite join_cons. by destruct p. Qed.

Lemma tidy_join parts :
  Forall (fun p => p <> "" /\ tidy p = true) parts ->
  tidy (join " " parts) = true.
Proof.
  induction 1 as [|p ps [Hp Htp] Hps IH]; [done|].
  destruct ps as [|q qs]; [done|]. rewrite join_cons.
  apply tidy_joint; try done.
  apply join_nonempty. by apply Forall_cons_1 in Hps as [[? _] _].
Qed.

Lemma tidy_btn v : tidy v = true -> tidy ("btn-" +:+ v) = true.
Proof.
  unfold tidy. rewrite !andb_true_iff, !negb_true_iff.
  intros [[Hl Ht] Hd]. repeat split.
  - destruct v as [|c v]; [done|].
    rewrite trailing_space_app by done. done.
  - exact Hd.
Qed.

Context {Node Callback : Type}.

(** The class list before joining: the variant and size classes always,
    the other two when they are not empty. *)
Lemma button_class_list (props : Props Node Callback) :
  attr_className (Button props) =
  join " " (["btn-" +:+ default "primary" (variant props);
             "btn-" +:+ default "md" (size props)]
            ++ (if default false (disabled props) then ["btn-disabled"] else [])
            ++ (if decide (default "" (className props) = "") then []
                else [default "" (className props)])).
Proof.
  unfold Button. cbn [attr_className].
  destruct (default false (disabled props));
    destruct (default "" (className props)); reflexivity.
Qed.
End ButtonFacts.

Example button_defaults :
  ButtonComponent.attr_className
    (ButtonComponent.Button (@ButtonComponent.no_props unit unit))
  = "btn-primary btn-md".
Proof. reflexivity. Qed.

Example button_disabled_custom :
  ButtonComponent.attr_className
    (ButtonComponent.Button
       (@ButtonComponent.mkProps unit unit None None (Some true) (Some "danger")
          (Some "lg") None (Some "custom-class") []))
  = "btn-danger btn-lg btn-disabled custom-class".
Proof. reflexivity. Qed.

(** C10, as stated, fails: with [className=" x"] and everything else left
    to its default, the rendered className is [btn-primary btn-md  x],
    which has a doubled space. *)
Lemma button_className_space_counterexample :
  ButtonComponent.attr_className
    (ButtonComponent.Button
       (@ButtonComponent.mkProps unit unit None None None None None None (Some " x") []))
  = "btn-primary btn-md  x"
  /\ ButtonComponent.doubled_space "btn-primary btn-md  x" = true.
Proof. split; reflexivity. Qed.

(** C10 (amended): for every combination of props, the rendered button's
    className is ["btn-" + variant], one space, ["btn-" + size], then
    [" btn-disabled"] exactly when disabled is true, then a space and the
    caller's className exactly when that is non-empty, with nothing before,
    between or after these; whenever variant, size and className
    themselves have no leading, trailing or doubled spaces, neither has the
    result; with all defaults the className is ["btn-primary btn-md"]; and
    the element's disabled attribute mirrors the disabled prop. *)
Theorem button_class_composition {Node Callback : Type}
    (props : ButtonComponent.Props Node Callback) :
  let d := default false (ButtonComponent.disabled props) in
  let v := default "primary" (ButtonComponent.variant props) in
  let s := default "md" (ButtonComponent.size props) in
  let c := default "" (ButtonComponent.className props) in
  ButtonComponent.attr_className (ButtonComponent.Button props) =
    "btn-" +:+ v +:+ " btn-" +:+ s
      +:+ (if d then " btn-disabled" else "")
      +:+ (if decide (c = "") then "" else " " +:+ c)
  /\ (ButtonComponent.tidy v = true -> ButtonComponent.tidy s = true ->
      ButtonComponent.tidy c = true ->
      ButtonComponent.tidy
        (ButtonComponent.attr_className (ButtonComponent.Button props)) = true)
  /\ ButtonComponent.attr_className
       (ButtonComponent.Button (@ButtonComponent.no_props Node Callback))
     = "btn-primary btn-md"
  /\ ButtonComponent.attr_disabled (ButtonComponent.Button props) = d.
Proof.
  intros d v s c. split; [|split; [|split; reflexivity]].
  - rewrite button_class_list. fold d v s c.
    destruct d; case_decide; cbn [List.app JsString.join];
      rewrite ?append_assoc, ?append_nil_r; reflexivity.
  - intros Hv Hs Hc. rewrite button_class_list. fold d v s c.
    apply tidy_join. repeat apply Forall_app_2.
    + apply Forall_cons_2; [split; [done|by apply tidy_btn]|].
      apply Forall_cons_2; [split; [done|by apply tidy_btn]|].
      constructor.
    + destruct d; [|constructor].
      apply Forall_cons_2; [by split|constructor].
    + case_decide; [constructor|].
      apply Forall_cons_2; [by split|constructor].
Qed.

Lemma button_class_composition_witness :
  ButtonComponent.tidy
    (ButtonComponent.attr_className
       (ButtonComponent.Button
          (@ButtonComponent.mkProps unit unit None None (Some true) (Some "danger")
             (Some "lg") None (Some "wide rounded") [])))
  = true.
Proof.
  exact (proj1 (proj2 (button_class_composition
                  (@ButtonComponent.mkProps unit unit None None (Some true)
                     (Some "danger") (Some "lg") None (Some "wide rounded") [])))
               eq_refl eq_refl eq_refl).
Defined.

(** * Further properties of the sources *)

(** ** More on the string primitives *)

Section MoreStringFacts.
Import JsString.

Lemma append_inj_l (p a b : string) : p +:+ a = p +:+ b -> a = b.
Proof.
  induction p as [|c p IH]; [done|]. rewrite !append_String.
  intros H. injection H as H. by apply IH.
Qed.

(** The fields of a string that was put together around a separator are
    the fields of the two sides. *)
Lemma split_app sep a b :
  split sep (a +:+ String sep b) = split sep a ++ split sep b.
Proof.
  induction a as [|c a IH]; [by simpl; rewrite Ascii.eqb_refl|].
  rewrite append_String. cbn [split]. rewrite IH.
  destruct (Ascii.eqb c sep); [done|].
  by destruct (split_cons_field sep a) as (f & fs & ->).
Qed.

(** A prefix without separator stays in front of the first field. *)
Lemma split_prefix_lacks sep a b :
  lacks sep a = true ->
  split sep (a +:+ b) =
  match split sep b with
  | f :: fs => (a +:+ f) :: fs
  | [] => [a]
  end.
Proof.
  induction a as [|c a IH]; intros Ha.
  - change ("" +:+ b) with b.
    by destruct (split_cons_field sep b) as (f & fs & ->).
  - cbn [lacks] in Ha. apply andb_true_iff in Ha as [Hc Ha].
    apply negb_true_iff in Hc.
    rewrite append_String. cbn [split]. rewrite Hc, (IH Ha).
    by destruct (split sep b).
Qed.

Lemma split_fields_lack sep s :
  Forall (fun f => lacks sep f = true) (split sep s).
Proof.
  induction s as [|c s IH]; cbn [split]; [by repeat constructor|].
  destruct (Ascii.eqb c sep) eqn:Hc; [by constructor|].
  destruct (split sep s) as [|f fs]; [by repeat constructor; cbn; rewrite Hc|].
  apply Forall_cons_1 in IH as [Hf Hfs].
  constructor; [|done]. cbn [lacks]. by rewrite Hc, Hf.
Qed.

Lemma lacks_slice c n s : lacks c s = true -> lacks c (slice n s) = true.
Proof.
  revert s. induction n as [|n IH]; intros s Hs; [by destruct s|].
  destruct s as [|d s]; [done|]. cbn [slice]. apply IH.
  cbn [lacks] in Hs. by apply andb_true_iff in Hs as [_ ?].
Qed.

Lemma lacks_replace c pat s :
  lacks c s = true -> lacks c (replace pat "" s) = true.
Proof.
  induction s as [|d s IH]; intros Hs; rewrite replace_unfold.
  - destruct (startsWith "" pat); [by apply lacks_slice|done].
  - destruct (startsWith (String d s) pat); [by apply lacks_slice|].
    cbn [lacks] in *. apply andb_true_iff in Hs as [-> Hs]. by rewrite IH.
Qed.

(** Replacing a pattern that does not occur changes nothing. *)
Lemma replace_absent pat rep s : includes s pat = false -> replace pat rep s = s.
Proof.
  induction s as [|d s IH]; intros Hs; rewrite replace_unfold;
    cbn [includes] in Hs; apply orb_false_iff in Hs as [-> Hs]; [done|].
  by rewrite IH.
Qed.

(** Deleting the first occurrence of a pattern leaves nothing exactly when
    the string is empty or is the pattern itself. *)
Lemma replace_empty_iff pat s : replace pat "" s = "" <-> s = "" \/ s = pat.
Proof.
  rewrite replace_unfold. destruct (startsWith s pat) eqn:Hp.
  - apply startsWith_split in Hp. change ("" +:+ ?x) with x. split.
    + intros Hs. rewrite Hs, append_nil_r in Hp. by right.
    + intros [->| ->].
      * by destruct pat.
      * rewrite <- (append_nil_r pat) at 2. apply slice_app.
  - split.
    + destruct s; [by left|done].
    + intros [->| ->]; [done|].
      rewrite <- (append_nil_r pat) in Hp at 1.
      by rewrite startsWith_app in Hp.
Qed.

Lemma split_join sep p ps :
  split sep (join (String sep "") (p :: ps)) = concat (split sep <$> (p :: ps)).
Proof.
  revert p. induction ps as [|q qs IH]; intros p.
  - cbn. by rewrite app_nil_r.
  - change (join (String sep "") (p :: q :: qs))
      with (p +:+ String sep (join (String sep "") (q :: qs))).
    rewrite split_app, IH. done.
Qed.
End MoreStringFacts.

(** ** More on the token utility and the middleware *)

(** X1: two users get the same token exactly when they have the same
    identifier; the other fields of the user play no part, and every
    token starts with [token_]. *)
Theorem generateToken_injective (u1 u2 : User) :
  (generateToken u1 = generateToken u2 <-> _id u1 = _id u2)
  /\ JsString.startsWith (generateToken u1) "token_" = true.
Proof.
  unfold generateToken. split; [split|].
  - apply append_inj_l.
  - by intros ->.
  - apply startsWith_app.
Qed.

(** X2: what the middleware decides depends on the Authorization header
    alone: two requests with the same header get the same answer, or are
    both handed on with the same user attached, whatever [user] they came
    with. *)
Theorem authenticate_header_only (req1 req2 : Request) :
  headers_authorization req1 = headers_authorization req2 ->
  match authenticate req1, authenticate req2 with
  | Responded res1, Responded res2 => res1 = res2
  | Next req1', Next req2' => user req1' = user req2'
  | _, _ => False
  end.
Proof.
  unfold authenticate. intros <-.
  by repeat match goal with |- context [if ?b then _ else _] => destruct b end.
Qed.

Lemma authenticate_header_only_witness :
  match authenticate
          (mkRequest (Some "Bearer token_u1") "p1"
                     (mkPostInput None None None None None)
                     (Some {| user_id := "admin" |})),
        authenticate
          (mkRequest (Some "Bearer token_u1") "p2"
                     (mkPostInput (Some "T") None None (Some "admin") None) None)
  with
  | Responded res1, Responded res2 => res1 = res2
  | Next req1', Next req2' => user req1' = user req2'
  | _, _ => False
  end.
Proof.
  exact (authenticate_header_only
           (mkRequest (Some "Bearer token_u1") "p1"
                      (mkPostInput None None None None None)
                      (Some {| user_id := "admin" |}))
           (mkRequest (Some "Bearer token_u1") "p2"
                      (mkPostInput (Some "T") None None (Some "admin") None) None)
           eq_refl).
Defined.

(** X3: when the middleware calls [next()], the request it hands on has
    the header, the parameters and the body it came with, and running the
    middleware on it again hands on the very same request. *)
Theorem authenticate_idempotent (req req' : Request) :
  authenticate req = Next req' ->
  headers_authorization req' = headers_authorization req
  /\ params_id req' = params_id req
  /\ body req' = body req
  /\ authenticate req' = Next req'.
Proof.
  intros Ha. destruct (authenticate_Next _ _ Ha) as [u ->].
  repeat split; try reflexivity.
  revert Ha. unfold authenticate. cbn [set_user headers_authorization].
  by repeat match goal with |- context [if ?b then _ else _] => destruct b end.
Qed.

Lemma authenticate_idempotent_witness :
  authenticate
    (mkRequest (Some "Bearer token_u1") "p1"
               (mkPostInput (Some "T") None None None None)
               (Some {| user_id := "u1" |}))
  = Next (mkRequest (Some "Bearer token_u1") "p1"
                    (mkPostInput (Some "T") None None None None)
                    (Some {| user_id := "u1" |})).
Proof.
  exact (proj2 (proj2 (proj2 (authenticate_idempotent
           (mkRequest (Some "Bearer token_u1") "p1"
                      (mkPostInput (Some "T") None None None None) None)
           (mkRequest (Some "Bearer token_u1") "p1"
                      (mkPostInput (Some "T") None None None None)
                      (Some {| user_id := "u1" |}))
           eq_refl)))).
Defined.

(** X4: whatever follows a second space in the header is ignored: with a
    non-empty token without spaces, the header ["Bearer " + token + " " +
    tail] is accepted with the identifier the token alone gives. *)
Theorem authenticate_ignores_tail (req : Request) (tok tail : string) :
  headers_authorization req = Some ("Bearer " +:+ tok +:+ " " +:+ tail) ->
  tok <> "" ->
  JsString.lacks JsString.space tok = true ->
  authenticate req =
  Next (set_user req {| user_id := JsString.replace "token_" "" tok |}).
Proof.
  intros Hh Hne Htok. rewrite (authenticate_bearer _ _ Hh).
  change (" " +:+ tail) with (String JsString.space tail).
  rewrite split_app, (split_lacks _ _ Htok). cbn [List.app head].
  by destruct tok.
Qed.

Lemma authenticate_ignores_tail_witness :
  authenticate
    (mkRequest (Some "Bearer token_u1 and more") "p1"
               (mkPostInput None None None None None) None)
  = Next (mkRequest (Some "Bearer token_u1 and more") "p1"
                    (mkPostInput None None None None None)
                    (Some {| user_id := "u1" |})).
Proof.
  exact (authenticate_ignores_tail
           (mkRequest (Some "Bearer token_u1 and more") "p1"
                      (mkPostInput None None None None None) None)
           "token_u1" "and more" eq_refl ltac:(discriminate) eq_refl).
Defined.

(** X5: the [token_] prefix is not required: a non-empty token without
    spaces in which [token_] does not occur is accepted and becomes the
    user identifier as it is. *)
Theorem authenticate_verbatim_token (req : Request) (tok : string) :
  headers_authorization req = Some ("Bearer " +:+ tok) ->
  tok <> "" ->
  JsString.lacks JsString.space tok = true ->
  JsString.includes tok "token_" = false ->
  authenticate req = Next (set_user req {| user_id := tok |}).
Proof.
  intros Hh Hne Htok Hinc. rewrite (authenticate_bearer _ _ Hh).
  rewrite (split_lacks _ _ Htok). cbn [head].
  destruct tok as [|c tok]; [done|]. by rewrite replace_absent.
Qed.

Lemma authenticate_verbatim_token_witness :
  authenticate
    (mkRequest (Some "Bearer 64b7f0c2a1d3e4f5a6b7c8d9") "p1"
               (mkPostInput None None None None None) None)
  = Next (mkRequest (Some "Bearer 64b7f0c2a1d3e4f5a6b7c8d9") "p1"
                    (mkPostInput None None None None None)
                    (Some {| user_id := "64b7f0c2a1d3e4f5a6b7c8d9" |})).
Proof.
  exact (authenticate_verbatim_token
           (mkRequest (Some "Bearer 64b7f0c2a1d3e4f5a6b7c8d9") "p1"
                      (mkPostInput None None None None None) None)
           "64b7f0c2a1d3e4f5a6b7c8d9" eq_refl ltac:(discriminate) eq_refl eq_refl).
Defined.

(** The middleware fails closed: it hands a request on only when the
    header starts with ["Bearer "] and its second field is not empty, and
    then the identifier attached is that field without its first
    [token_]. *)
Lemma authenticate_Next_token req req' :
  authenticate req = Next req' ->
  exists h tok,
    headers_authorization req = Some h /\
    JsString.startsWith h "Bearer " = true /\
    JsString.split JsString.space h !! 1 = Some tok /\
    tok <> "" /\
    req' = set_user req {| user_id := JsString.replace "token_" "" tok |}.
Proof.
  unfold authenticate. destruct (headers_authorization req) as [h|]; [|done].
  cbn [default from_option id].
  destruct (JsString.truthy (Some h)); [|done]. cbn [negb orb].
  destruct (JsString.startsWith h "Bearer ") eqn:Hp; [|done]. cbn [negb].
  destruct (JsString.split JsString.space h !! 1) as [[|c tok]|] eqn:Ht;
    try done.
  cbn [JsString.truthy negb]. intros [= <-]. by eexists _, _.
Qed.

(** X6: the identifier the middleware attaches never contains a space. *)
Theorem authenticate_id_lacks_space (req req' : Request) :
  authenticate req = Next req' ->
  exists u, user req' = Some u /\
            JsString.lacks JsString.space (user_id u) = true.
Proof.
  intros (h & tok & _ & _ & Ht & _ & ->)%authenticate_Next_token.
  eexists. split; [reflexivity|]. cbn [user_id].
  apply lacks_replace.
  exact (Forall_lookup_1 _ _ _ _ (split_fields_lack JsString.space h) Ht).
Qed.

Lemma authenticate_id_lacks_space_witness :
  exists u,
    user (mkRequest (Some "Bearer token_a b") "p1"
                    (mkPostInput None None None None None)
                    (Some {| user_id := "a" |})) = Some u
    /\ JsString.lacks JsString.space (user_id u) = true.
Proof.
  exact (authenticate_id_lacks_space
           (mkRequest (Some "Bearer token_a b") "p1"
                      (mkPostInput None None None None None) None)
           (mkRequest (Some "Bearer token_a b") "p1"
                      (mkPostInput None None None None None)
                      (Some {| user_id := "a" |}))
           eq_refl).
Defined.

(** X7: an accepted request carries the empty identifier exactly when the
    token, the second field of the header, is [token_] and nothing more. *)
Theorem authenticate_empty_id (req req' : Request) (h : string) :
  headers_authorization req = Some h ->
  authenticate req = Next req' ->
  (user req' = Some {| user_id := "" |} <->
   JsString.split JsString.space h !! 1 = Some "token_").
Proof.
  intros Hh (h' & tok & Hh' & _ & Ht & Hne & ->)%authenticate_Next_token.
  rewrite Hh in Hh'. injection Hh' as <-. rewrite Ht. cbn [set_user user].
  split.
  - intros [= He]. apply replace_empty_iff in He as [->| ->]; done.
  - intros [= ->]. reflexivity.
Qed.

Lemma authenticate_empty_id_witness :
  user (mkRequest (Some "Bearer token_") "p1"
                  (mkPostInput None None None None None)
                  (Some {| user_id := "" |}))
  = Some {| user_id := "" |}.
Proof.
  exact (proj2 (authenticate_empty_id
                  (mkRequest (Some "Bearer token_") "p1"
                             (mkPostInput None None None None None) None)
                  (mkRequest (Some "Bearer token_") "p1"
                             (mkPostInput None None None None None)
                             (Some {| user_id := "" |}))
                  "Bearer token_" eq_refl eq_refl)
               eq_refl).
Defined.

(** X8: a token made by [generateToken] is never rejected, whatever the
    identifier: the request is handed on with the identifier cut at its
    first space (the whole identifier when it has none). *)
Theorem generated_token_accepted (u : User) (req : Request) :
  headers_authorization req = Some ("Bearer " +:+ generateToken u) ->
  authenticate req =
  Next (set_user req
          {| user_id := default "" (head (JsString.split JsString.space (_id u))) |}).
Proof.
  intros Hh. rewrite (authenticate_bearer _ _ Hh). unfold generateToken.
  rewrite (split_prefix_lacks JsString.space "token_" (_id u) eq_refl).
  destruct (split_cons_field JsString.space (_id u)) as (f & fs & ->).
  cbn [head default from_option id].
  change ("token_" +:+ f) with (String "t" ("oken_" +:+ f)) at 1.
  cbv iota. change (String "t" ("oken_" +:+ f)) with ("token_" +:+ f).
  by rewrite replace_prefix.
Qed.

Lemma generated_token_accepted_witness :
  authenticate
    (mkRequest (Some "Bearer token_ann lee") "p1"
               (mkPostInput None None None None None) None)
  = Next (mkRequest (Some "Bearer token_ann lee") "p1"
                    (mkPostInput None None None None None)
                    (Some {| user_id := "ann" |})).
Proof.
  exact (generated_token_accepted
           (mkUser "ann lee" "ann" "ann@example.com")
           (mkRequest (Some "Bearer token_ann lee") "p1"
                      (mkPostInput None None None None None) None)
           eq_refl).
Defined.

(** ** More on the Button component *)

(** The space-separated fields of the rendered className. *)
Lemma className_fields {Node Callback : Type}
    (props : ButtonComponent.Props Node Callback) :
  let d := default false (ButtonComponent.disabled props) in
  let v := default "primary" (ButtonComponent.variant props) in
  let s := default "md" (ButtonComponent.size props) in
  let c := default "" (ButtonComponent.className props) in
  JsString.split JsString.space
    (ButtonComponent.attr_className (ButtonComponent.Button props)) =
  JsString.split JsString.space ("btn-" +:+ v)
  ++ JsString.split JsString.space ("btn-" +:+ s)
  ++ (if d then ["btn-disabled"] else [])
  ++ (if decide (c = "") then [] else JsString.split JsString.space c).
Proof.
  intros d v s c. rewrite button_class_list. fold d v s c.
  cbn [List.app]. change " " with (String JsString.space "").
  rewrite split_join.
  destruct d; case_decide; cbn [fmap list_fmap concat List.app];
    rewrite ?app_nil_r; reflexivity.
Qed.

(** X9: split at its spaces, the rendered className gives back the parts
    it was composed of: the fields of the variant class, then those of the
    size class, then [btn-disabled] when disabled, then the fields of the
    caller's className when that is not empty. *)
Theorem button_class_fields {Node Callback : Type}
    (props : ButtonComponent.Props Node Callback) :
  let d := default false (ButtonComponent.disabled props) in
  let v := default "primary" (ButtonComponent.variant props) in
  let s := default "md" (ButtonComponent.size props) in
  let c := default "" (ButtonComponent.className props) in
  JsString.split JsString.space
    (ButtonComponent.attr_className (ButtonComponent.Button props)) =
  JsString.split JsString.space ("btn-" +:+ v)
  ++ JsString.split JsString.space ("btn-" +:+ s)
  ++ (if d then ["btn-disabled"] else [])
  ++ (if decide (c = "") then [] else JsString.split JsString.space c).
Proof. apply className_fields. Qed.

(** X10: a disabled button always has the field [btn-disabled] in its
    className; a button that is not disabled has it only if the variant,
    the size or the caller's className brings it in: not when variant and
    size are without spaces and other than [disabled] and the caller's
    className has no such field. *)
Theorem button_disabled_class {Node Callback : Type}
    (props : ButtonComponent.Props Node Callback) :
  let d := default false (ButtonComponent.disabled props) in
  let v := default "primary" (ButtonComponent.variant props) in
  let s := default "md" (ButtonComponent.size props) in
  let c := default "" (ButtonComponent.className props) in
  let fields :=
    JsString.split JsString.space
      (ButtonComponent.attr_className (ButtonComponent.Button props)) in
  (d = true -> "btn-disabled" ∈ fields)
  /\ (d = false ->
      JsString.lacks JsString.space v = true -> v <> "disabled" ->
      JsString.lacks JsString.space s = true -> s <> "disabled" ->
      "btn-disabled" ∉ JsString.split JsString.space c ->
      "btn-disabled" ∉ fields).
Proof.
  intros d v s c fields. unfold fields.
  pose proof (className_fields props) as Hf. cbv zeta in Hf.
  fold d v s c in Hf. rewrite Hf. split.
  - intros ->. rewrite !elem_of_app. right. right. left. by left.
  - intros -> Hv Hvd Hs Hsd Hc.
    assert (forall x, JsString.lacks JsString.space x = true -> x <> "disabled" ->
                      "btn-disabled" ∉ JsString.split JsString.space ("btn-" +:+ x))
      as Hbtn.
    { intros x Hx Hxd. rewrite split_lacks by exact Hx.
      intros [Heq|[]%elem_of_nil]%elem_of_cons. apply Hxd.
      by apply (append_inj_l "btn-" x "disabled"). }
    rewrite !elem_of_app. intros [?|[?|[[]%elem_of_nil|Hin]]].
    + by apply (Hbtn v).
    + by apply (Hbtn s).
    + case_decide; [by apply elem_of_nil in Hin|done].
Qed.

Lemma button_disabled_class_witness :
  "btn-disabled" ∈
    JsString.split JsString.space
      (ButtonComponent.attr_className
         (ButtonComponent.Button
            (@ButtonComponent.mkProps unit unit None None (Some true) None None
               None (Some "wide") [])))
  /\ "btn-disabled" ∉
       JsString.split JsString.space
         (ButtonComponent.attr_className
            (ButtonComponent.Button
               (@ButtonComponent.mkProps unit unit None None (Some false)
                  (Some "danger") (Some "lg") None (Some "wide rounded") []))).
Proof.
  split.
  - exact (proj1 (button_disabled_class
                    (@ButtonComponent.mkProps unit unit None None (Some true) None
                       None None (Some "wide") []))
                 eq_refl).
  - refine (proj2 (button_disabled_class
                     (@ButtonComponent.mkProps unit unit None None (Some false)
                        (Some "danger") (Some "lg") None (Some "wide rounded") []))
                  eq_refl eq_refl _ eq_refl _ _).
    + discriminate.
    + discriminate.
    + cbn. intros H. repeat (apply elem_of_cons in H as [H|H]; [discriminate|]).
      by apply elem_of_nil in H.
Defined.

(** A variant named [disabled] brings the class in without the button
    being disabled. *)
Example button_variant_disabled :
  ButtonComponent.attr_className
    (ButtonComponent.Button
       (@ButtonComponent.mkProps unit unit None None (Some false) (Some "disabled")
          None None None []))
  = "btn-disabled btn-md".
Proof. reflexivity. Qed.

(** X11: the middleware fails closed: whenever it calls [next()], the
    request had an Authorization header starting with ["Bearer "] whose
    second space-separated field is not empty, and the identifier attached
    is that field with its first [token_] removed. *)
Theorem authenticate_fails_closed (req req' : Request) :
  authenticate req = Next req' ->
  exists h tok,
    headers_authorization req = Some h /\
    JsString.startsWith h "Bearer " = true /\
    JsString.split JsString.space h !! 1 = Some tok /\
    tok <> "" /\
    user req' = Some {| user_id := JsString.replace "token_" "" tok |}.
Proof.
  intros (h & tok & Hh & Hp & Ht & Hne & ->)%authenticate_Next_token.
  by exists h, tok.
Qed.

Lemma authenticate_fails_closed_witness :
  exists h tok,
    Some "Bearer xtoken_y z" = Some h /\
    JsString.startsWith h "Bearer " = true /\
    JsString.split JsString.space h !! 1 = Some tok /\
    tok <> "" /\
    Some {| user_id := "xy" |}
    = Some {| user_id := JsString.replace "token_" "" tok |}.
Proof.
  exact (authenticate_fails_closed
           (mkRequest (Some "Bearer xtoken_y z") "p1"
                      (mkPostInput None None None None None) None)
           (mkRequest (Some "Bearer xtoken_y z") "p1"
                      (mkPostInput None None None None None)
                      (Some {| user_id := "xy" |}))
           eq_refl).
Defined.
